(** * The AMax reduction node of torch_xla's IR

    A shallow embedding of [torch_xla/csrc/ops/amax.cpp] and
    [torch_xla/csrc/ops/amax.h]: the node's constructor, [Clone], [Lower],
    [ToString] and the accessors of the header.  What these call and is
    declared elsewhere (the [Node] base class, [Value], the lowering context,
    [InferOutputShape], [BuildMaxInDims], the hash functions) is either taken
    as an interface or modelled from the specification, and marked as such. *)

From Stdlib Require Import ZArith Lia Ascii.
From stdpp Require Import base list strings pretty gmap.

Local Open Scope string_scope.
Set Warnings "-register-all".

(** ** Errors and fallible computations *)

(** The first three are the specification's taxonomy of errors; the last two
    are what the C++ library does on an index that is not there:
    [operands.at(0)] throws [std::out_of_range], and [operands[0]] on an
    empty span has no defined behaviour. *)
Inductive Error : Type :=
| ShapeMismatch
| IndexOutOfRange
| LoweringError (node : string)
| std_out_of_range
| span_out_of_bounds.

Inductive result (A : Type) : Type :=
| Ok (a : A)
| Err (e : Error).

Arguments Ok {A} a.
Arguments Err {A} e.

#[export] Instance result_bind : MBind result :=
  fun A B (k : A -> result B) (r : result A) =>
    match r with
    | Ok a => k a
    | Err e => Err e
    end.

(** ** Shapes *)

(** [xla::PrimitiveType], the element types a tensor can have. *)
Inductive PrimitiveType : Type :=
| PRED | S8 | S16 | S32 | S64 | U8 | U16 | U32 | U64 | F16 | BF16 | F32 | F64.

(** [xla::Shape] of an array: its element type and the size of each axis
    ([xla::int64] sizes, as [Z]). *)
Record Shape : Type := {
  element_type : PrimitiveType;
  dimensions : list Z
}.

Definition rank (s : Shape) : nat := length (dimensions s).

(** ** The backend's expressions *)

(** [xla::XlaOp].  Two ways of building one matter for this node: the
    placeholders that shape inference hands to a trial lowering, and the
    maximum over dimensions that the node lowers to. *)
Inductive XlaOp : Type :=
| XParameter (number : nat) (shape : Shape)
| XMaxInDims (input : XlaOp) (dimensions : list Z) (keep_reduced_dimensions : bool).

Definition XlaOpVector : Type := list XlaOp.

(** An axis index is valid for a tensor of rank [r] when it is in [0, r). *)
Definition valid_axis (r : nat) (d : Z) : bool :=
  (0 <=? d)%Z && (d <? Z.of_nat r)%Z.

(** Modelled from the spec: the sizes left by a reduction over [dims] (the
    code is in [torch_xla/csrc/reduction.cpp], which is not among the
    sources).  The axis [i] of the input is dropped when it is reduced, or
    kept with size 1 under keepdim ("keep reduced dimensions as size-1");
    every other axis keeps its size ("each retained dimension's size equals
    the input's corresponding dimension size"). *)
Fixpoint reduce_sizes (i : Z) (sizes : list Z) (dims : list Z) (keepdim : bool)
  : list Z :=
  match sizes with
  | [] => []
  | size :: rest =>
      if bool_decide (i ∈ dims)
      then (if keepdim
            then 1%Z :: reduce_sizes (i + 1) rest dims keepdim
            else reduce_sizes (i + 1) rest dims keepdim)
      else size :: reduce_sizes (i + 1) rest dims keepdim
  end.

(** Modelled from the spec: the shape of the maximum over [dims] of a tensor
    of shape [s].  "Dimensions must be validated as within input rank bounds
    (fail with IndexOutOfRange otherwise)"; the maximum of elements has the
    elements' type. *)
Definition MaxInDimsShape (s : Shape) (dims : list Z) (keepdim : bool)
  : result Shape :=
  if forallb (valid_axis (rank s)) dims
  then Ok {| element_type := element_type s;
             dimensions := reduce_sizes 0 (dimensions s) dims keepdim |}
  else Err IndexOutOfRange.

(** Modelled from the spec: the backend's "symbolic-shape inference utility
    keyed on primitive construction", the shape an expression would produce. *)
Fixpoint ShapeOfXlaOp (op : XlaOp) : result Shape :=
  match op with
  | XParameter _ s => Ok s
  | XMaxInDims input dims keepdim =>
      s ← ShapeOfXlaOp input;
      MaxInDimsShape s dims keepdim
  end.

(** Modelled from the spec: [BuildMaxInDims] of [torch_xla/csrc/reduction.h],
    the backend's "max over dimensions" primitive.  Building it fails when the
    primitive is ill-formed for its operand ("backend primitive construction
    failure"). *)
Definition BuildMaxInDims (input : XlaOp) (dimensions : list Z)
    (keep_reduced_dimensions : bool) : result XlaOp :=
  let op := XMaxInDims input dimensions keep_reduced_dimensions in
  _ ← ShapeOfXlaOp op;
  Ok op.

(** Modelled from the spec: [InferOutputShape] of
    [torch_xla/csrc/ops/infer_output_shape.h].  "Given a list of input shapes
    and a function that, given symbolic backend operand placeholders,
    produces a trial backend expression, returns the shape that expression
    would produce." *)
Definition InferOutputShape (input_shapes : list Shape)
    (lower_for_shape_fn : list XlaOp -> result XlaOp) : result Shape :=
  let parameters := imap XParameter input_shapes in
  result ← lower_for_shape_fn parameters;
  ShapeOfXlaOp result.

(** ** Operation kinds *)

(** [c10::Symbol], an interned qualified name. *)
Definition Symbol : Type := string.

Module aten.
Definition argmax : Symbol := "aten::argmax".
End aten.

(** [ir::OpKind], the operation-kind tag of a node. *)
Record OpKind : Type := { op : Symbol }.

Definition OpKind_ToString (k : OpKind) : string := op k.

(** ** Hashing *)

(** The hash functions are declared outside the sources and the
    specification only says what they combine, so they are an interface:
    [MHash] is [xla::util::MHash] at the arguments the node passes to it, and
    [NodeHash] is the "structural hash combining operation kind, operand
    identities, and op-specific parameters" that the [Node] base class
    computes from its constructor's arguments. *)
Class HashFunctions : Type := {
  hash_t : Type;
  MHash : list Z -> bool -> hash_t;
  NodeHash : OpKind -> list (hash_t * nat) -> hash_t -> hash_t
}.

(** ** Nodes and values *)

(** Modelled from the spec: [Value] (and [Output]) of [torch_xla/csrc/ir.h],
    "a reference to exactly one (Node, output-index) pair". *)
Record Output (N : Type) : Type := {
  node : N;
  index : nat
}.

Arguments node {N} _.
Arguments index {N} _.

Section IR.
Context {HF : HashFunctions}.

(** Modelled from the spec: the [Node] base class of [torch_xla/csrc/ir.h]:
    "operation-kind tag; ordered sequence of operand Values; an output shape
    (one shape per declared output); a structural hash; number of outputs".
    [Node_shape n i] is the shape of output [i]. *)
Inductive Node : Type := MkNode {
  Node_op : OpKind;
  Node_operands : list (Output Node);
  Node_shape : nat -> Shape;
  Node_num_outputs : nat;
  Node_hash : hash_t
}.

Definition Value : Type := Output Node.

(** Modelled from the spec: the invariant of a value, "output-index <
    referenced node's output count". *)
Definition Value_ok (v : Value) : Prop :=
  index v < Node_num_outputs (node v).

(** Modelled from the spec: [Value::shape()], the shape of the output the
    value refers to ("one shape per declared output"). *)
Definition Value_shape (v : Value) : Shape := Node_shape (node v) (index v).

(** Modelled from the spec: the "operand identity" that enters the hash of
    a node.  Nodes with structurally equal operands must hash equal, so it is
    the structural hash of the operand's node with the index of the output,
    not the address of the node. *)
Definition operand_id (v : Value) : hash_t * nat := (Node_hash (node v), index v).

(** Modelled from the spec: the constructor of [Node] that the node calls:
    "constructed from an operation-kind tag, an ordered list of operand
    Values, a shape-computing function (invoked once, eagerly, at
    construction), a declared output count, and a hash seed".  An error of
    the shape function is an error of the construction ("shape inference call
    raises"). *)
Definition Node_ctor (op : OpKind) (operands : list Value)
    (shape_fn : unit -> result Shape) (num_outputs : nat) (hash_seed : hash_t)
  : result Node :=
  shape ← shape_fn tt;
  Ok {| Node_op := op;
        Node_operands := operands;
        Node_shape := fun _ => shape;
        Node_num_outputs := num_outputs;
        Node_hash := NodeHash op (operand_id <$> operands) hash_seed |}.

(** Modelled from the spec: [Node::operand(i)], the [i]-th of the "ordered
    sequence of operand Values". *)
Definition Node_operand (n : Node) (i : nat) : result Value :=
  match Node_operands n !! i with
  | Some v => Ok v
  | None => Err std_out_of_range
  end.

(** Modelled from the spec: [Node::ToString()], the base representation:
    the "operation kind", to which a subclass appends its parameters. *)
Definition Node_ToString (n : Node) : string := OpKind_ToString (Node_op n).

(** ** The lowering context *)

(** The lowering context is declared in [torch_xla/csrc/lowering_context.h];
    how it lowers an operand that has not been emitted depends on every kind
    of node, so it is an interface.  [GetOutputOp] "returns the previously
    emitted backend handle for that (node, output-index) pair, lowering the
    node on first access", hence it may change the context or fail;
    [AssignOutputOp] registers a handle as an output of a node. *)
Class LoweringInterface : Type := {
  LoweringContext : Type;
  GetOutputOp : LoweringContext -> Value -> result (XlaOp * LoweringContext);
  AssignOutputOp : LoweringContext -> Value -> XlaOp -> LoweringContext
}.

Context {LI : LoweringInterface}.

(** Modelled from the spec: [Node::ReturnOp], which "registers a newly
    produced backend handle as a node's output and returns it wrapped for the
    caller". *)
Definition ReturnOp (this : Node) (op : XlaOp) (loctx : LoweringContext)
  : XlaOpVector * LoweringContext :=
  ([op], AssignOutputOp loctx {| node := this; index := 0 |} op).

(** ** AMax (amax.cpp) *)

(** The object: its [Node] base and the two members that the constructor of
    amax.cpp initialises. *)
Record AMax : Type := {
  base : Node;
  dimensions_ : list Z;
  keepdim_ : bool
}.

(** amax.cpp, lines 13-20. *)
Definition NodeOutputShape (input : Value) (dimensions : list Z) (keepdim : bool)
  : result Shape :=
  let lower_for_shape_fn := fun operands : list XlaOp =>
    match operands with
    | operand0 :: _ => BuildMaxInDims operand0 dimensions keepdim
    | [] => Err span_out_of_bounds
    end in
  InferOutputShape [Value_shape input] lower_for_shape_fn.

(** amax.cpp, lines 24-29.  The base is built first, from the tag
    [at::aten::argmax], the one operand, the shape function, one output and
    the hash of the parameters; then the members are initialised.  (amax.h
    declares the second parameter as a single [xla::int64 dim]; the
    definition in amax.cpp, which is the one embedded, takes the vector.) *)
Definition AMax_ctor (input : Value) (dimensions : list Z) (keepdim : bool)
  : result AMax :=
  base ← Node_ctor {| op := aten.argmax |} [input]
           (fun _ => NodeOutputShape input dimensions keepdim)
           1 (MHash dimensions keepdim);
  Ok {| base := base; dimensions_ := dimensions; keepdim_ := keepdim |}.

(** [OpList::at]. *)
Definition OpList_at (operands : list Value) (i : nat) : result Value :=
  match operands !! i with
  | Some v => Ok v
  | None => Err std_out_of_range
  end.

(** amax.cpp, lines 31-33; [MakeNode<AMax>] constructs the node. *)
Definition Clone (this : AMax) (operands : list Value) : result AMax :=
  operand0 ← OpList_at operands 0;
  AMax_ctor operand0 (dimensions_ this) (keepdim_ this).

(** amax.cpp, lines 35-38. *)
Definition Lower (this : AMax) (loctx : LoweringContext)
  : result (XlaOpVector * LoweringContext) :=
  operand0 ← Node_operand (base this) 0;
  '(input, loctx) ← GetOutputOp loctx operand0;
  max ← BuildMaxInDims input (dimensions_ this) (keepdim_ this);
  Ok (ReturnOp (base this) max loctx).

(** [absl::StrJoin] of integers: their decimal forms with the separator
    between them. *)
Fixpoint StrJoin (range : list Z) (separator : string) : string :=
  match range with
  | [] => ""
  | [x] => pretty x
  | x :: rest => pretty x +:+ separator +:+ StrJoin rest separator
  end.

(** [operator<<] of a stream for a [bool] (no [boolalpha]). *)
Definition stream_bool (b : bool) : string := if b then "1" else "0".

(** amax.cpp, lines 40-45. *)
Definition ToString (this : AMax) : string :=
  Node_ToString (base this) +:+ ", dimensions="
    +:+ StrJoin (dimensions_ this) ", "
    +:+ ", keepdim=" +:+ stream_bool (keepdim_ this).

(** ** The accessors of amax.h *)

(** A data member's value: amax.h has members and a return type of
    [xla::int64] and [bool], amax.cpp a member that is a vector. *)
Inductive MemberValue : Type :=
| int64_member (x : Z)
| vector_member (xs : list Z)
| bool_member (b : bool).

(** The data members amax.h declares (lines 24-25). *)
Definition declared_members : list string := ["dimensions"; "keepdim_"].

(** The data members the constructor's initialiser list of amax.cpp writes
    (lines 28-29), by name. *)
Definition initialised_members (this : AMax) : gmap string MemberValue :=
  {[ "dimensions_" := vector_member (dimensions_ this);
     "keepdim_" := bool_member (keepdim_ this) ]}.

(** amax.h, line 19: [dim()] returns the member named [dim_]. *)
Definition dim (this : AMax) : option MemberValue :=
  initialised_members this !! "dim_".

(** amax.h, line 21: [keepdim()] returns the member named [keepdim_]. *)
Definition keepdim (this : AMax) : option MemberValue :=
  initialised_members this !! "keepdim_".

(** The node a construction yields when the shape function yields [shape]. *)
Definition AMax_of (input : Value) (dims : list Z) (keepdim : bool)
    (shape : Shape) : AMax :=
  {| base := {| Node_op := {| op := aten.argmax |};
                Node_operands := [input];
                Node_shape := fun _ => shape;
                Node_num_outputs := 1;
                Node_hash := NodeHash {| op := aten.argmax |} [operand_id input]
                               (MHash dims keepdim) |};
     dimensions_ := dims;
     keepdim_ := keepdim |}.

End IR.

(** ** Instances to run the definitions on *)

Module Sample.

(** 64-bit hashes that mix their arguments with wrap-around. *)
Definition mix (a b : Z) : Z := ((a * 31 + b + 17) mod 2 ^ 64)%Z.

Definition symbol_hash (s : string) : Z := Z.of_nat (String.length s).

Definition hashes : HashFunctions := {|
  hash_t := Z;
  MHash := fun dimensions keepdim =>
    mix (foldr mix 0%Z dimensions) (if keepdim then 1 else 0)%Z;
  NodeHash := fun kind operands seed =>
    foldl (fun h id => mix (mix h id.1) (Z.of_nat id.2))
          (mix (symbol_hash (op kind)) seed) operands
|}.

(** A context that holds the handles emitted so far, by operand identity,
    and has no way of lowering a node it has not seen. *)
Definition lowering : @LoweringInterface hashes := {|
  LoweringContext := list ((Z * nat) * XlaOp);
  GetOutputOp := fun loctx v =>
    match list_find (fun entry => entry.1 = @operand_id hashes v) loctx with
    | Some (_, (_, handle)) => Ok (handle, loctx)
    | None => Err (LoweringError (@Node_ToString hashes (node v)))
    end;
  AssignOutputOp := fun loctx v handle => (@operand_id hashes v, handle) :: loctx
|}.

(** A leaf of the graph with one output of the given shape. *)
Definition leaf (h : Z) (s : Shape) : @Value hashes :=
  {| node := @MkNode hashes {| op := "xla::device_data" |} [] (fun _ => s) 1 h;
     index := 0 |}.

Definition shape_3_4 : Shape := {| element_type := F32; dimensions := [3; 4]%Z |}.

Definition input_3_4 : @Value hashes := leaf 7 shape_3_4.

(** A leaf with the identity of [input_3_4] and another shape. *)
Definition other_5_6 : @Value hashes :=
  leaf 7 {| element_type := S32; dimensions := [5; 6]%Z |}.

(** A context in which a handle of that input's shape was emitted for it. *)
Definition loctx0 : @LoweringContext hashes lowering :=
  [(@operand_id hashes input_3_4, XParameter 0 shape_3_4)].

End Sample.

(** ** The strings ToString builds *)

(** Every character of a string satisfies [P]. *)
Fixpoint string_Forall (P : ascii -> Prop) (s : string) : Prop :=
  match s with
  | EmptyString => True
  | String c rest => P c /\ string_Forall P rest
  end.

(** The characters of a printed integer: a digit or the minus sign. *)
Definition numeric (c : ascii) : Prop :=
  c = "-"%char \/ is_Some (Ascii.is_nat c).

(** What [ToString] (amax.cpp, lines 42-43) writes after the base's string. *)
Definition parameters_string (dims : list Z) (keepdim : bool) : string :=
  ", dimensions=" +:+ StrJoin dims ", "
    +:+ ", keepdim=" +:+ stream_bool keepdim.

(** What follows the first printed dimension, after its comma. *)
Definition after_first (rest : list Z) (keepdim : bool) : string :=
  match rest with
  | [] => " keepdim=" +:+ stream_bool keepdim
  | _ :: _ => " " +:+ StrJoin rest ", " +:+ ", keepdim=" +:+ stream_bool keepdim
  end.

(** ** The sizes a reduction leaves *)

(** The output axis that the input axis [a] becomes when it is not reduced:
    itself under keepdim, and otherwise [a] moved down by the number of
    reduced axes before it. *)
Definition output_axis (dims : list Z) (keepdim : bool) (a : nat) : nat :=
  if keepdim then a
  else a - length (filter (fun d => (d < Z.of_nat a)%Z) dims).

(** The dimension lists the node is meant for: every index is an axis of the
    input, and no axis is named twice. *)
Definition valid_dimensions (r : nat) (dims : list Z) : Prop :=
  NoDup dims /\ Forall (fun d => (0 <= d < Z.of_nat r)%Z) dims.

#[export] Instance valid_dimensions_dec (r : nat) (dims : list Z) :
  Decision (valid_dimensions r dims).
Proof. unfold valid_dimensions. apply _. Defined.

Lemma seqZ_succ_len (i : Z) (k : nat) :
  seqZ i (Z.of_nat (S k)) = i :: seqZ (i + 1) (Z.of_nat k).
Proof.
  rewrite seqZ_cons by lia.
  f_equal. f_equal; lia.
Qed.

Lemma reduce_sizes_no_dims (i : Z) (sizes : list Z) (keepdim : bool) :
  reduce_sizes i sizes [] keepdim = sizes.
Proof.
  revert i. induction sizes as [|size rest IH]; intros i; [done|].
  cbn [reduce_sizes]. rewrite bool_decide_eq_false_2 by apply not_elem_of_nil.
  by rewrite IH.
Qed.

Lemma reduce_sizes_keepdim_length (i : Z) (sizes dims : list Z) :
  length (reduce_sizes i sizes dims true) = length sizes.
Proof.
  revert i. induction sizes as [|size rest IH]; intros i; [done|].
  cbn [reduce_sizes]. case_bool_decide; simpl; by rewrite IH.
Qed.

Lemma reduce_sizes_keepdim_lookup (i : Z) (sizes dims : list Z) (k : nat) :
  (i + Z.of_nat k)%Z ∉ dims ->
  reduce_sizes i sizes dims true !! k = sizes !! k.
Proof.
  revert i k. induction sizes as [|size rest IH]; intros i k Hk; [done|].
  cbn [reduce_sizes]. destruct k as [|k].
  - rewrite bool_decide_eq_false_2; [done|].
    by replace i with (i + Z.of_nat 0)%Z by lia.
  - assert (reduce_sizes (i + 1) rest dims true !! k = rest !! k) as Hrest.
    { apply IH. by replace (i + 1 + Z.of_nat k)%Z with (i + Z.of_nat (S k))%Z by lia. }
    by case_bool_decide.
Qed.

(** Without keepdim the output has one size per axis that is not reduced. *)
Lemma reduce_sizes_drop_length (i : Z) (sizes dims : list Z) :
  length (reduce_sizes i sizes dims false)
    + length (filter (.∈ dims) (seqZ i (Z.of_nat (length sizes))))
  = length sizes.
Proof.
  revert i. induction sizes as [|size rest IH]; intros i; [done|].
  cbn [reduce_sizes length]. rewrite seqZ_succ_len.
  specialize (IH (i + 1)%Z).
  case_bool_decide.
  - rewrite filter_cons_True by done. simpl. lia.
  - rewrite filter_cons_False by done. simpl. lia.
Qed.

Lemma reduce_sizes_drop_lookup (i : Z) (sizes dims : list Z) (k : nat) :
  (i + Z.of_nat k)%Z ∉ dims ->
  reduce_sizes i sizes dims false
    !! (k - length (filter (.∈ dims) (seqZ i (Z.of_nat k))))
  = sizes !! k.
Proof.
  revert i k. induction sizes as [|size rest IH]; intros i k Hk.
  { by rewrite !lookup_nil. }
  destruct k as [|k]; cbn [reduce_sizes].
  - rewrite bool_decide_eq_false_2; [done|].
    by replace i with (i + Z.of_nat 0)%Z by lia.
  - rewrite seqZ_succ_len.
    assert ((i + 1 + Z.of_nat k)%Z ∉ dims) as Hk'.
    { by replace (i + 1 + Z.of_nat k)%Z with (i + Z.of_nat (S k))%Z by lia. }
    specialize (IH (i + 1)%Z k Hk').
    pose proof (length_filter (.∈ dims) (seqZ (i + 1) (Z.of_nat k))) as Hle.
    rewrite length_seqZ, Nat2Z.id in Hle.
    case_bool_decide.
    + rewrite filter_cons_True by done. exact IH.
    + rewrite filter_cons_False by done.
      replace (S k - length (filter (.∈ dims) (seqZ (i + 1) (Z.of_nat k))))
        with (S (k - length (filter (.∈ dims) (seqZ (i + 1) (Z.of_nat k)))))
        by lia.
      exact IH.
Qed.

(** The reduced axes below [a], counted along the axes or along the list of
    dimensions. *)
Lemma reduced_below_count (dims : list Z) (a : nat) :
  NoDup dims -> (forall d, d ∈ dims -> (0 <= d)%Z) ->
  length (filter (.∈ dims) (seqZ 0 (Z.of_nat a)))
  = length (filter (fun d => (d < Z.of_nat a)%Z) dims).
Proof.
  intros Hnodup Hpos. apply Permutation_length, NoDup_Permutation.
  - apply NoDup_filter, NoDup_seqZ.
  - by apply NoDup_filter.
  - intros x. rewrite !list_elem_of_filter, elem_of_seqZ.
    split; [intros [? ?]; split; [lia|done]|].
    intros [? Hx]. split; [done|]. specialize (Hpos x Hx). lia.
Qed.

Lemma valid_dimensions_forallb (r : nat) (dims : list Z) :
  (forall d, d ∈ dims -> (0 <= d < Z.of_nat r)%Z) ->
  forallb (valid_axis r) dims = true.
Proof.
  intros Hrange. apply forallb_forall. intros d Hd.
  apply list_elem_of_In, Hrange in Hd. unfold valid_axis.
  apply andb_true_intro. split; [apply Z.leb_le | apply Z.ltb_lt]; lia.
Qed.

Lemma filter_below_rank (r : nat) (dims : list Z) :
  (forall d, d ∈ dims -> (0 <= d < Z.of_nat r)%Z) ->
  filter (fun d => (d < Z.of_nat r)%Z) dims = dims.
Proof.
  induction dims as [|d dims IH]; intros Hrange; [done|].
  rewrite filter_cons_True by (apply Hrange; left).
  f_equal. apply IH. intros d' Hd'. apply Hrange. by right.
Qed.

(** What the specification asks of the reduction's shape, for the dimension
    lists the node is meant for. *)
Lemma MaxInDimsShape_valid (s : Shape) (dims : list Z) (keepdim : bool) :
  valid_dimensions (rank s) dims ->
  exists out, MaxInDimsShape s dims keepdim = Ok out
    /\ element_type out = element_type s
    /\ rank out = rank s - (if keepdim then 0 else length dims)
    /\ forall a size, Z.of_nat a ∉ dims -> dimensions s !! a = Some size ->
         dimensions out !! output_axis dims keepdim a = Some size.
Proof.
  intros [Hnodup Hrange]. rewrite Forall_forall in Hrange.
  unfold MaxInDimsShape. rewrite valid_dimensions_forallb by done.
  eexists; split; [done|]. unfold rank; simpl.
  assert (forall d, d ∈ dims -> (0 <= d)%Z) as Hpos.
  { intros d Hd. specialize (Hrange d Hd). lia. }
  split; [done|]. destruct keepdim; simpl.
  - split; [rewrite reduce_sizes_keepdim_length; lia|].
    intros a size Ha <-. by apply reduce_sizes_keepdim_lookup.
  - split.
    + pose proof (reduce_sizes_drop_length 0 (dimensions s) dims) as Hlen.
      rewrite reduced_below_count, filter_below_rank in Hlen by done. lia.
    + intros a size Ha <-.
      rewrite <- reduced_below_count by done.
      by apply reduce_sizes_drop_lookup.
Qed.

(** ** The constructor *)

Section Properties.
Context {HF : HashFunctions} {LI : LoweringInterface}.

Implicit Types (input : Value) (dims : list Z) (keepdim : bool) (n : AMax).

(** The trial lowering has one placeholder, of the operand's shape, and the
    shape inferred is that of the maximum over the dimensions. *)
Lemma NodeOutputShape_eq input dims keepdim :
  NodeOutputShape input dims keepdim
  = MaxInDimsShape (Value_shape input) dims keepdim.
Proof.
  unfold NodeOutputShape, InferOutputShape, BuildMaxInDims. simpl.
  destruct (MaxInDimsShape (Value_shape input) dims keepdim) as [out|e] eqn:Hout;
    simpl; [|done].
  by rewrite Hout.
Qed.

Lemma AMax_ctor_eq input dims keepdim :
  AMax_ctor input dims keepdim
  = shape ← MaxInDimsShape (Value_shape input) dims keepdim;
    Ok (AMax_of input dims keepdim shape).
Proof.
  unfold AMax_ctor, Node_ctor. rewrite NodeOutputShape_eq.
  by destruct (MaxInDimsShape (Value_shape input) dims keepdim).
Qed.

Lemma AMax_ctor_Ok input dims keepdim n :
  AMax_ctor input dims keepdim = Ok n ->
  exists shape, MaxInDimsShape (Value_shape input) dims keepdim = Ok shape
    /\ n = AMax_of input dims keepdim shape.
Proof.
  rewrite AMax_ctor_eq.
  destruct (MaxInDimsShape (Value_shape input) dims keepdim) as [shape|e];
    simpl; [|done].
  intros [= <-]. by exists shape.
Qed.

Lemma MaxInDimsShape_no_dims (s : Shape) keepdim :
  MaxInDimsShape s [] keepdim = Ok s.
Proof.
  unfold MaxInDimsShape. simpl. rewrite reduce_sizes_no_dims. by destruct s.
Qed.

Lemma MaxInDimsShape_out_of_range (s : Shape) dims keepdim (d : Z) :
  d ∈ dims -> ~ (0 <= d < Z.of_nat (rank s))%Z ->
  MaxInDimsShape s dims keepdim = Err IndexOutOfRange.
Proof.
  intros Hd Hout. unfold MaxInDimsShape.
  destruct (forallb (valid_axis (rank s)) dims) eqn:Hall; [|done].
  rewrite forallb_forall in Hall.
  apply list_elem_of_In, Hall in Hd. unfold valid_axis in Hd.
  apply andb_prop in Hd as [?%Z.leb_le ?%Z.ltb_lt]. lia.
Qed.

Lemma BuildMaxInDims_Ok (handle : XlaOp) dims keepdim (s out : Shape) :
  ShapeOfXlaOp handle = Ok s ->
  MaxInDimsShape s dims keepdim = Ok out ->
  BuildMaxInDims handle dims keepdim = Ok (XMaxInDims handle dims keepdim)
  /\ ShapeOfXlaOp (XMaxInDims handle dims keepdim) = Ok out.
Proof.
  intros Hs Hout.
  assert (ShapeOfXlaOp (XMaxInDims handle dims keepdim) = Ok out) as Hmax.
  { cbn [ShapeOfXlaOp]. rewrite Hs. exact Hout. }
  split; [|done]. unfold BuildMaxInDims. cbv zeta. by rewrite Hmax.
Qed.

(** C1.  For every input and every valid list of dimensions (each an axis of
    the input, none twice) the construction yields a node; the rank of its
    shape is the input's rank, less the number of dimensions unless keepdim
    is set; every axis that is not reduced keeps its size, at the axis it
    becomes in the output; and for an input of sizes [3,4] reduced over [1]
    the output has sizes [3], or [3,1] under keepdim. *)
Theorem AMax_output_shape input dims keepdim :
  valid_dimensions (rank (Value_shape input)) dims ->
  exists n, AMax_ctor input dims keepdim = Ok n
    /\ rank (Node_shape (base n) 0)
       = rank (Value_shape input) - (if keepdim then 0 else length dims)
    /\ (forall a size,
          Z.of_nat a ∉ dims ->
          dimensions (Value_shape input) !! a = Some size ->
          dimensions (Node_shape (base n) 0) !! output_axis dims keepdim a
          = Some size)
    /\ (dimensions (Value_shape input) = [3; 4]%Z -> dims = [1%Z] ->
        dimensions (Node_shape (base n) 0)
        = if keepdim then [3; 1]%Z else [3%Z]).
Proof.
  intros Hvalid.
  destruct (MaxInDimsShape_valid _ _ keepdim Hvalid)
    as (out & Hout & _ & Hrank & Hsizes).
  exists (AMax_of input dims keepdim out).
  rewrite AMax_ctor_eq, Hout. simpl.
  repeat split; [done..|].
  intros Hin ->. unfold MaxInDimsShape in Hout. rewrite Hin in Hout.
  destruct (forallb _ _); [|done].
  injection Hout as <-. by destruct keepdim.
Qed.

(** C2.  A dimension list with an index at or beyond the input's rank makes
    the construction itself fail, with IndexOutOfRange: no node is built. *)
Theorem AMax_ctor_index_out_of_range input dims keepdim (d : Z) :
  d ∈ dims -> (Z.of_nat (rank (Value_shape input)) <= d)%Z ->
  AMax_ctor input dims keepdim = Err IndexOutOfRange.
Proof.
  intros Hd Hge. rewrite AMax_ctor_eq.
  rewrite (MaxInDimsShape_out_of_range _ _ _ d) by (done || lia). done.
Qed.

(** C8.  With no dimension to reduce the construction succeeds, whatever
    keepdim is, and the node's shape is the input's. *)
Theorem AMax_no_dimensions input keepdim :
  exists n, AMax_ctor input [] keepdim = Ok n
    /\ Node_shape (base n) 0 = Value_shape input.
Proof.
  exists (AMax_of input [] keepdim (Value_shape input)).
  by rewrite AMax_ctor_eq, MaxInDimsShape_no_dims.
Qed.

(** C3.  Whatever node is constructed, [keepdim()] returns the flag it was
    constructed with, and the axes are stored in the member [dimensions_];
    but [dim()] reads a member [dim_], which the constructor does not
    initialise and the class does not declare: it returns no reduction
    axes. *)
Theorem AMax_dim_reads_no_member input (axes : list Z) (flag : bool) :
  match AMax_ctor input axes flag with
  | Ok n =>
      keepdim n = Some (bool_member flag)
      /\ initialised_members n !! "dimensions_" = Some (vector_member axes)
      /\ dim n = None
      /\ "dim_" ∉ declared_members
  | Err _ => True
  end.
Proof.
  rewrite AMax_ctor_eq.
  destruct (MaxInDimsShape (Value_shape input) axes flag) as [shape|e];
    [|done].
  change (keepdim (AMax_of input axes flag shape) = Some (bool_member flag)
          /\ initialised_members (AMax_of input axes flag shape) !! "dimensions_"
             = Some (vector_member axes)
          /\ dim (AMax_of input axes flag shape) = None
          /\ "dim_" ∉ declared_members).
  unfold keepdim, dim, initialised_members, declared_members.
  cbn [AMax_of dimensions_ keepdim_].
  split_and!; [by simplify_map_eq..|].
  rewrite !not_elem_of_cons. split_and!; [done..|apply not_elem_of_nil].
Qed.

(** C4.  Cloning a node onto an operand list whose first value has the shape
    of the original operand succeeds, and the clone has the dimensions, the
    keepdim flag and the output shape of the original; its operand is the
    substituted one. *)
Theorem Clone_same_shape input dims keepdim n (v : Value) (rest : list Value) :
  AMax_ctor input dims keepdim = Ok n ->
  Value_shape v = Value_shape input ->
  exists n', Clone n (v :: rest) = Ok n'
    /\ dimensions_ n' = dimensions_ n
    /\ keepdim_ n' = keepdim_ n
    /\ Node_shape (base n') = Node_shape (base n)
    /\ Node_operands (base n') = [v].
Proof.
  intros (shape & Hshape & ->)%AMax_ctor_Ok Hv.
  exists (AMax_of v dims keepdim shape).
  unfold Clone. simpl. by rewrite AMax_ctor_eq, Hv, Hshape.
Qed.

(** C5.  The hash of a constructed node is the structural hash of the tag
    [aten::argmax], the identity of the operand and the hash of (dimensions,
    keepdim); so two nodes built with the same dimensions and keepdim over
    operands of the same identity have equal hashes. *)
Theorem AMax_hash_structural input1 input2 dims keepdim n1 n2 :
  AMax_ctor input1 dims keepdim = Ok n1 ->
  AMax_ctor input2 dims keepdim = Ok n2 ->
  operand_id input1 = operand_id input2 ->
  Node_hash (base n1)
  = NodeHash {| op := aten.argmax |} [operand_id input1] (MHash dims keepdim)
  /\ Node_hash (base n1) = Node_hash (base n2).
Proof.
  intros (shape1 & _ & ->)%AMax_ctor_Ok (shape2 & _ & ->)%AMax_ctor_Ok Hid.
  simpl. by rewrite Hid.
Qed.

(** C6.  Lowering a constructed node asks the context for the handle of the
    one operand, builds the maximum over the node's dimensions with its
    keepdim flag on that handle, registers the result as the node's output
    and returns it; an error of either step is the error of the lowering.
    What it returns is one handle. *)
Theorem Lower_builds_max_in_dims input dims keepdim n (loctx : LoweringContext) :
  AMax_ctor input dims keepdim = Ok n ->
  Node_operands (base n) = [input]
  /\ Lower n loctx
     = ('(handle, loctx') ← GetOutputOp loctx input;
        max ← BuildMaxInDims handle dims keepdim;
        Ok ([max], AssignOutputOp loctx' {| node := base n; index := 0 |} max))
  /\ forall ops loctx', Lower n loctx = Ok (ops, loctx') -> length ops = 1.
Proof.
  intros (shape & _ & ->)%AMax_ctor_Ok. split; [done|].
  unfold Lower, ReturnOp. simpl. split; [done|].
  intros ops loctx'.
  destruct (GetOutputOp loctx input) as [[handle loctx1]|e]; simpl; [|done].
  destruct (BuildMaxInDims handle dims keepdim) as [max|e]; simpl; [|done].
  by intros [= <- _].
Qed.

(** C7.  The shape a node gets at construction is the shape of the expression
    its lowering emits: whenever the context hands out, for the operand, a
    handle of the operand's shape, the lowering succeeds with one expression,
    and that expression has the node's shape. *)
Theorem shape_inference_agrees_with_lowering input dims keepdim n
    (loctx loctx1 : LoweringContext) (handle : XlaOp) :
  AMax_ctor input dims keepdim = Ok n ->
  GetOutputOp loctx input = Ok (handle, loctx1) ->
  ShapeOfXlaOp handle = Ok (Value_shape input) ->
  exists max loctx2, Lower n loctx = Ok ([max], loctx2)
    /\ ShapeOfXlaOp max = Ok (Node_shape (base n) 0).
Proof.
  intros (shape & Hshape & ->)%AMax_ctor_Ok Hget Hhandle.
  destruct (BuildMaxInDims_Ok handle dims keepdim _ _ Hhandle Hshape)
    as [Hbuild Hmax].
  exists (XMaxInDims handle dims keepdim). eexists.
  split; [|exact Hmax].
  unfold Lower. cbn [AMax_of base dimensions_ keepdim_].
  change (Node_operand _ 0) with (Ok input).
  cbn [mbind result_bind]. rewrite Hget. cbn [mbind result_bind].
  rewrite Hbuild. done.
Qed.

(** C9.  The string of a constructed node is the string of its [Node] base
    followed by the dimensions, joined by a comma and a blank, and the
    keepdim flag. *)
Theorem ToString_appends_parameters input dims keepdim n :
  AMax_ctor input dims keepdim = Ok n ->
  ToString n
  = Node_ToString (base n)
      +:+ ", dimensions=" +:+ StrJoin dims ", "
      +:+ ", keepdim=" +:+ (if keepdim then "1" else "0").
Proof.
  by intros (shape & _ & ->)%AMax_ctor_Ok.
Qed.

(** C10.  Every constructed node carries the tag [aten::argmax], the tag of
    an argmax node, while the expression its lowering emits is a maximum
    over dimensions. *)
Theorem AMax_op_is_argmax input dims keepdim n :
  AMax_ctor input dims keepdim = Ok n ->
  Node_op (base n) = {| op := aten.argmax |}
  /\ op (Node_op (base n)) = "aten::argmax"
  /\ (forall (argmax_node : Node),
        Node_op argmax_node = {| op := aten.argmax |} ->
        Node_op (base n) = Node_op argmax_node)
  /\ (forall (loctx loctx' : LoweringContext) ops,
        Lower n loctx = Ok (ops, loctx') ->
        exists handle, ops = [XMaxInDims handle dims keepdim]).
Proof.
  intros (shape & _ & ->)%AMax_ctor_Ok. simpl.
  repeat split; [done|].
  intros loctx loctx' ops. unfold Lower, BuildMaxInDims. simpl.
  destruct (GetOutputOp loctx input) as [[handle loctx1]|e]; simpl; [|done].
  destruct (handle_shape ← ShapeOfXlaOp handle;
            MaxInDimsShape handle_shape dims keepdim); simpl; [|done].
  intros [= <- _]. by exists handle.
Qed.

End Properties.

(** ** The theorems at work on a [3,4] input *)

Section Examples.
Import Sample.

Local Existing Instance hashes.
Local Existing Instance lowering.

Lemma AMax_output_shape_on_3_4 :
  valid_dimensions (rank (Value_shape input_3_4)) [1%Z]
  /\ (exists n, AMax_ctor input_3_4 [1%Z] false = Ok n
        /\ rank (Node_shape (base n) 0) = 1
        /\ dimensions (Node_shape (base n) 0) = [3%Z])
  /\ (exists n, AMax_ctor input_3_4 [1%Z] true = Ok n
        /\ rank (Node_shape (base n) 0) = 2
        /\ dimensions (Node_shape (base n) 0) = [3; 1]%Z).
Proof.
  assert (valid_dimensions (rank (Value_shape input_3_4)) [1%Z]) as Hvalid.
  { apply (bool_decide_unpack _). by vm_compute. }
  split; [exact Hvalid|]. split.
  - destruct (AMax_output_shape input_3_4 [1%Z] false Hvalid)
      as (n & Hn & Hrank & _ & Hsizes).
    exists n. split; [exact Hn|]. split; [exact Hrank|]. by apply Hsizes.
  - destruct (AMax_output_shape input_3_4 [1%Z] true Hvalid)
      as (n & Hn & Hrank & _ & Hsizes).
    exists n. split; [exact Hn|]. split; [exact Hrank|]. by apply Hsizes.
Defined.

Lemma AMax_ctor_index_out_of_range_on_3_4 :
  2%Z ∈ [2%Z]
  /\ (Z.of_nat (rank (Value_shape input_3_4)) <= 2)%Z
  /\ AMax_ctor input_3_4 [2%Z] false = Err IndexOutOfRange.
Proof.
  assert (2%Z ∈ [2%Z]) as Hin by (apply list_elem_of_singleton; reflexivity).
  assert (Z.of_nat (rank (Value_shape input_3_4)) <= 2)%Z as Hge
    by (vm_compute; discriminate).
  split; [exact Hin|]. split; [exact Hge|].
  exact (AMax_ctor_index_out_of_range input_3_4 [2%Z] false 2%Z Hin Hge).
Defined.

Lemma Clone_same_shape_on_3_4 :
  exists n n', AMax_ctor input_3_4 [1%Z] false = Ok n
    /\ Clone n [leaf 9 shape_3_4] = Ok n'
    /\ dimensions_ n' = [1%Z] /\ keepdim_ n' = false
    /\ Node_shape (base n') 0 = {| element_type := F32; dimensions := [3%Z] |}.
Proof.
  pose (n := AMax_of input_3_4 [1%Z] false
               {| element_type := F32; dimensions := [3%Z] |}).
  assert (AMax_ctor input_3_4 [1%Z] false = Ok n) as Hn by reflexivity.
  destruct (Clone_same_shape input_3_4 [1%Z] false n (leaf 9 shape_3_4) [] Hn)
    as (n' & Hclone & Hdims & Hkeep & Hshape & _); [reflexivity|].
  exists n, n'. split; [exact Hn|]. split; [exact Hclone|].
  split; [exact Hdims|]. split; [exact Hkeep|]. by rewrite Hshape.
Defined.

Lemma AMax_hash_structural_on_3_4 :
  exists n1 n2,
    AMax_ctor input_3_4 [1%Z] false = Ok n1
    /\ AMax_ctor (leaf 7 {| element_type := S32; dimensions := [5; 6]%Z |})
         [1%Z] false = Ok n2
    /\ Node_hash (base n1) = Node_hash (base n2).
Proof.
  pose (other := leaf 7 {| element_type := S32; dimensions := [5; 6]%Z |}).
  pose (n1 := AMax_of input_3_4 [1%Z] false
                {| element_type := F32; dimensions := [3%Z] |}).
  pose (n2 := AMax_of other [1%Z] false
                {| element_type := S32; dimensions := [5%Z] |}).
  assert (AMax_ctor input_3_4 [1%Z] false = Ok n1) as H1 by reflexivity.
  assert (AMax_ctor other [1%Z] false = Ok n2) as H2 by reflexivity.
  exists n1, n2. split; [exact H1|]. split; [exact H2|].
  exact (proj2 (AMax_hash_structural input_3_4 other [1%Z] false n1 n2 H1 H2 eq_refl)).
Defined.

Lemma Lower_builds_max_in_dims_on_3_4 :
  exists n, AMax_ctor input_3_4 [1%Z] false = Ok n
    /\ Lower n loctx0
       = Ok ([XMaxInDims (XParameter 0 shape_3_4) [1%Z] false],
             (operand_id {| node := base n; index := 0 |},
              XMaxInDims (XParameter 0 shape_3_4) [1%Z] false) :: loctx0).
Proof.
  pose (n := AMax_of input_3_4 [1%Z] false
               {| element_type := F32; dimensions := [3%Z] |}).
  assert (AMax_ctor input_3_4 [1%Z] false = Ok n) as Hn by reflexivity.
  exists n. split; [exact Hn|].
  destruct (Lower_builds_max_in_dims input_3_4 [1%Z] false n loctx0 Hn)
    as (_ & -> & _).
  vm_compute. reflexivity.
Defined.

Lemma shape_inference_agrees_with_lowering_on_3_4 :
  exists n max loctx2, AMax_ctor input_3_4 [1%Z] true = Ok n
    /\ Lower n loctx0 = Ok ([max], loctx2)
    /\ ShapeOfXlaOp max = Ok {| element_type := F32; dimensions := [3; 1]%Z |}.
Proof.
  pose (n := AMax_of input_3_4 [1%Z] true
               {| element_type := F32; dimensions := [3; 1]%Z |}).
  assert (AMax_ctor input_3_4 [1%Z] true = Ok n) as Hn by reflexivity.
  destruct (shape_inference_agrees_with_lowering input_3_4 [1%Z] true n
              loctx0 loctx0 (XParameter 0 shape_3_4) Hn)
    as (max & loctx2 & Hlower & Hmax); [reflexivity|reflexivity|].
  exists n, max, loctx2. split; [exact Hn|]. split; [exact Hlower|exact Hmax].
Defined.

Lemma ToString_appends_parameters_on_3_4 :
  exists n, AMax_ctor input_3_4 [0; 1]%Z true = Ok n
    /\ ToString n = "aten::argmax, dimensions=0, 1, keepdim=1".
Proof.
  pose (n := AMax_of input_3_4 [0; 1]%Z true
               {| element_type := F32; dimensions := [1; 1]%Z |}).
  assert (AMax_ctor input_3_4 [0; 1]%Z true = Ok n) as Hn by reflexivity.
  exists n. split; [exact Hn|].
  rewrite (ToString_appends_parameters input_3_4 [0; 1]%Z true n Hn).
  vm_compute. reflexivity.
Defined.

Lemma AMax_op_is_argmax_on_3_4 :
  exists n, AMax_ctor input_3_4 [1%Z] false = Ok n
    /\ op (Node_op (base n)) = "aten::argmax".
Proof.
  pose (n := AMax_of input_3_4 [1%Z] false
               {| element_type := F32; dimensions := [3%Z] |}).
  assert (AMax_ctor input_3_4 [1%Z] false = Ok n) as Hn by reflexivity.
  exists n. split; [exact Hn|].
  exact (proj1 (proj2 (AMax_op_is_argmax (LI := lowering) input_3_4 [1%Z] false n Hn))).
Defined.

End Examples.

(** ** Cloning, construction and the printed parameters *)

Section Cloning.
Context {HF : HashFunctions}.

Implicit Types (input : Value) (dims : list Z) (keepdim : bool) (n : AMax).

Lemma Clone_constructed input dims keepdim n (operands : list Value) :
  AMax_ctor input dims keepdim = Ok n ->
  Clone n operands
  = operand0 ← OpList_at operands 0; AMax_ctor operand0 dims keepdim.
Proof.
  by intros (shape & _ & ->)%AMax_ctor_Ok.
Qed.


(** X2.  Cloning a constructed node onto its own operands gives the node
    back: the same base (tag, operand, shape, hash) and the same members. *)
Theorem Clone_own_operands input dims keepdim n :
  AMax_ctor input dims keepdim = Ok n ->
  Clone n (Node_operands (base n)) = Ok n.
Proof.
  intros Hn. destruct (AMax_ctor_Ok _ _ _ _ Hn) as (shape & _ & Heq).
  rewrite (Clone_constructed _ _ _ _ _ Hn). by subst n.
Qed.

(** X3.  A clone clones like the node it came from: whatever the operands of
    the first cloning were, a second cloning gives what cloning the original
    onto the second operands gives, error or node. *)
Theorem Clone_of_clone n n1 (operands operands' : list Value) :
  Clone n operands = Ok n1 ->
  Clone n1 operands' = Clone n operands'.
Proof.
  unfold Clone. destruct (OpList_at operands 0) as [operand0|e]; [|done].
  cbn [mbind result_bind]. intros (shape & _ & ->)%AMax_ctor_Ok. done.
Qed.

(** X4.  A clone onto an operand with the identity of the original operand
    (the hash of its node and its output index) has the tag, the number of
    outputs and the hash of the original, whatever the operand's shape. *)
Theorem Clone_same_identity input dims keepdim n n' (v : Value)
    (rest : list Value) :
  AMax_ctor input dims keepdim = Ok n ->
  operand_id v = operand_id input ->
  Clone n (v :: rest) = Ok n' ->
  Node_op (base n') = Node_op (base n)
  /\ Node_num_outputs (base n') = Node_num_outputs (base n)
  /\ Node_hash (base n') = Node_hash (base n).
Proof.
  intros Hn Hid. rewrite (Clone_constructed _ _ _ _ _ Hn).
  cbn [OpList_at lookup list_lookup mbind result_bind].
  apply AMax_ctor_Ok in Hn as (shape & _ & ->).
  intros (shape' & _ & ->)%AMax_ctor_Ok. simpl. by rewrite Hid.
Qed.


(** X8.  The shape of a clone is inferred anew from the substituted operand,
    with the original's dimensions and keepdim; it is not copied from the
    original. *)
Theorem Clone_shape_from_operand input dims keepdim n n' (v : Value)
    (rest : list Value) :
  AMax_ctor input dims keepdim = Ok n ->
  Clone n (v :: rest) = Ok n' ->
  NodeOutputShape v dims keepdim = Ok (Node_shape (base n') 0)
  /\ Node_operands (base n') = [v].
Proof.
  intros Hn. rewrite (Clone_constructed _ _ _ _ _ Hn).
  cbn [OpList_at lookup list_lookup mbind result_bind].
  intros (shape' & Hshape' & ->)%AMax_ctor_Ok.
  by rewrite NodeOutputShape_eq.
Qed.

End Cloning.

(** ** The printed parameters tell the parameters *)

Lemma numeric_char (x : N) : numeric (pretty_N_char x).
Proof.
  right. unfold pretty_N_char. repeat case_match; by eexists.
Qed.

Lemma pretty_N_go_numeric (x : N) (s : string) :
  string_Forall numeric s -> string_Forall numeric (pretty_N_go x s).
Proof.
  revert s. induction (N.lt_wf_0 x) as [x _ IH]; intros s Hs.
  destruct (decide (x = 0)%N) as [->|Hx]; [by rewrite pretty_N_go_0|].
  rewrite pretty_N_go_step by lia.
  apply IH; [apply N.div_lt; lia|].
  split; [apply numeric_char|done].
Qed.

Lemma pretty_N_go_nonempty (x : N) (s : string) :
  s <> "" -> pretty_N_go x s <> "".
Proof.
  revert s. induction (N.lt_wf_0 x) as [x _ IH]; intros s Hs.
  destruct (decide (x = 0)%N) as [->|Hx]; [by rewrite pretty_N_go_0|].
  rewrite pretty_N_go_step by lia.
  apply IH; [apply N.div_lt; lia|done].
Qed.

Lemma pretty_N_numeric (x : N) :
  pretty x <> "" /\ string_Forall numeric (pretty x).
Proof.
  unfold pretty, pretty_N. case_decide as Hx.
  - split; [done|]. split; [|done]. right. by eexists.
  - split; [|by apply pretty_N_go_numeric].
    rewrite pretty_N_go_step by lia. by apply pretty_N_go_nonempty.
Qed.

(** A printed integer is not empty and is made of digits and a minus sign. *)
Lemma pretty_Z_numeric (x : Z) :
  exists c rest, pretty x = String c rest
    /\ numeric c /\ string_Forall numeric rest.
Proof.
  assert (forall s, s <> "" -> string_Forall numeric s ->
            exists c rest, s = String c rest
              /\ numeric c /\ string_Forall numeric rest) as Hsplit.
  { intros [|c rest] Hne Hall; [done|]. destruct Hall. by exists c, rest. }
  destruct x as [|p|p].
  - exists "0"%char, "". split; [done|]. split; [|done]. right. by eexists.
  - apply Hsplit; apply (pretty_N_numeric (N.pos p)).
  - exists "-"%char, (pretty (N.pos p)).
    split; [done|]. split; [by left|]. apply (pretty_N_numeric (N.pos p)).
Qed.

(** Two strings that agree up to their first comma agree before and after
    it. *)
Lemma split_at_comma (s1 s2 t1 t2 : string) :
  string_Forall numeric s1 -> string_Forall numeric s2 ->
  s1 +:+ String ","%char t1 = s2 +:+ String ","%char t2 ->
  s1 = s2 /\ t1 = t2.
Proof.
  assert (forall c, numeric c -> c <> ","%char) as Hcomma.
  { intros c [->|[k Hk]] Hc; [discriminate Hc|]. subst c. discriminate Hk. }
  revert s2. induction s1 as [|c1 s1 IH]; intros [|c2 s2] H1 H2 Heq;
    cbn in Heq.
  - by injection Heq as ->.
  - injection Heq as <- _. destruct H2 as [H2 _]. by destruct (Hcomma _ H2).
  - injection Heq as -> _. destruct H1 as [H1 _]. by destruct (Hcomma _ H1).
  - injection Heq as -> Heq. destruct H1 as [_ H1], H2 as [_ H2].
    destruct (IH s2 H1 H2 Heq) as [-> ->]. done.
Qed.

Lemma string_app_assoc (a b c : string) :
  (a +:+ b) +:+ c = a +:+ (b +:+ c).
Proof.
  induction a as [|x a IH]; [done|].
  change (String x ((a +:+ b) +:+ c) = String x (a +:+ (b +:+ c))).
  by rewrite IH.
Qed.

Lemma StrJoin_keepdim_cons (x : Z) (rest : list Z) (keepdim : bool) :
  StrJoin (x :: rest) ", " +:+ ", keepdim=" +:+ stream_bool keepdim
  = pretty x +:+ String ","%char (after_first rest keepdim).
Proof.
  destruct rest as [|y rest]; cbn [StrJoin after_first].
  - done.
  - by rewrite string_app_assoc.
Qed.

Lemma stream_bool_inj (b1 b2 : bool) :
  stream_bool b1 = stream_bool b2 -> b1 = b2.
Proof. by destruct b1, b2. Qed.

Lemma numeric_not_comma (c : ascii) : numeric c -> c <> ","%char.
Proof.
  intros [->|[k Hk]] Hc; [discriminate Hc|]. subst c. discriminate Hk.
Qed.

Lemma numeric_not_k (c : ascii) : numeric c -> c <> "k"%char.
Proof.
  intros [->|[k Hk]] Hc; [discriminate Hc|]. subst c. discriminate Hk.
Qed.

Lemma after_first_not_keepdim (y : Z) (rest : list Z) (b1 b2 : bool) :
  after_first [] b1 <> after_first (y :: rest) b2.
Proof.
  cbn [after_first]. rewrite StrJoin_keepdim_cons.
  destruct (pretty_Z_numeric y) as (c & tail & -> & Hc & _).
  intros Heq. cbv [String.append] in Heq. injection Heq as Hk _.
  by destruct (numeric_not_k c).
Qed.

Lemma keepdim_not_dimension (y : Z) (rest : list Z) (b1 b2 : bool) :
  StrJoin [] ", " +:+ ", keepdim=" +:+ stream_bool b1
  <> StrJoin (y :: rest) ", " +:+ ", keepdim=" +:+ stream_bool b2.
Proof.
  rewrite StrJoin_keepdim_cons.
  destruct (pretty_Z_numeric y) as (c & tail & -> & Hc & _).
  intros Heq. cbv [StrJoin String.append] in Heq. injection Heq as Hcomma _.
  by destruct (numeric_not_comma c).
Qed.

Lemma StrJoin_keepdim_inj (dims1 dims2 : list Z) (b1 b2 : bool) :
  StrJoin dims1 ", " +:+ ", keepdim=" +:+ stream_bool b1
  = StrJoin dims2 ", " +:+ ", keepdim=" +:+ stream_bool b2 ->
  dims1 = dims2 /\ b1 = b2.
Proof.
  revert dims2. induction dims1 as [|x rest1 IH]; intros [|y rest2].
  - change (", keepdim=" +:+ stream_bool b1 = ", keepdim=" +:+ stream_bool b2
            -> @nil Z = [] /\ b1 = b2).
    by intros ?%(inj (String.app _))%stream_bool_inj.
  - intros Heq. by destruct (keepdim_not_dimension y rest2 b1 b2).
  - intros Heq. by destruct (keepdim_not_dimension x rest1 b2 b1).
  - rewrite !StrJoin_keepdim_cons. intros Heq.
    destruct (pretty_Z_numeric x) as (c1 & tail1 & Hx & Hc1 & Htail1).
    destruct (pretty_Z_numeric y) as (c2 & tail2 & Hy & Hc2 & Htail2).
    apply split_at_comma in Heq as [Hxy Hafter];
      [|by rewrite Hx|by rewrite Hy].
    apply (inj pretty) in Hxy as ->.
    destruct rest1 as [|x' rest1], rest2 as [|y' rest2].
    + apply (inj (String.app _)), stream_bool_inj in Hafter. by subst.
    + by destruct (after_first_not_keepdim y' rest2 b1 b2).
    + by destruct (after_first_not_keepdim x' rest1 b2 b1).
    + apply (inj (String.app " ")) in Hafter.
      destruct (IH (y' :: rest2) Hafter) as [-> ->]. done.
Qed.

Section Printing.
Context {HF : HashFunctions}.

(** X6.  Two nodes whose bases print alike and whose strings are equal have
    the same dimensions, in the same order, and the same keepdim flag: the
    text that [ToString] appends determines the parameters. *)
Theorem ToString_tells_parameters (n1 n2 : AMax) :
  Node_ToString (base n1) = Node_ToString (base n2) ->
  ToString n1 = ToString n2 ->
  dimensions_ n1 = dimensions_ n2 /\ keepdim_ n1 = keepdim_ n2.
Proof.
  unfold ToString. intros -> Heq.
  apply (inj (String.app _)) in Heq. cbn in Heq.
  apply (inj (String.app ", dimensions=")) in Heq.
  by apply StrJoin_keepdim_inj.
Qed.


End Printing.

(** ** Cloning and printing on a [3,4] input *)

Section MoreExamples.
Import Sample.

Local Existing Instance hashes.


Lemma Clone_own_operands_on_3_4 :
  exists n, AMax_ctor input_3_4 [1%Z] true = Ok n
    /\ Clone n (Node_operands (base n)) = Ok n.
Proof.
  pose (n := AMax_of input_3_4 [1%Z] true
               {| element_type := F32; dimensions := [3; 1]%Z |}).
  assert (AMax_ctor input_3_4 [1%Z] true = Ok n) as Hn by reflexivity.
  exists n. split; [exact Hn|].
  exact (Clone_own_operands input_3_4 [1%Z] true n Hn).
Defined.

Lemma Clone_of_clone_on_3_4 :
  exists n n1, AMax_ctor input_3_4 [1%Z] false = Ok n
    /\ Clone n [other_5_6] = Ok n1
    /\ Clone n1 [input_3_4] = Ok n.
Proof.
  pose (n := AMax_of input_3_4 [1%Z] false
               {| element_type := F32; dimensions := [3%Z] |}).
  pose (n1 := AMax_of other_5_6 [1%Z] false
                {| element_type := S32; dimensions := [5%Z] |}).
  assert (AMax_ctor input_3_4 [1%Z] false = Ok n) as Hn by reflexivity.
  assert (Clone n [other_5_6] = Ok n1) as Hn1 by reflexivity.
  exists n, n1. split; [exact Hn|]. split; [exact Hn1|].
  rewrite (Clone_of_clone n n1 [other_5_6] [input_3_4] Hn1).
  reflexivity.
Defined.

Lemma Clone_same_identity_on_3_4 :
  exists n n', AMax_ctor input_3_4 [1%Z] false = Ok n
    /\ operand_id other_5_6 = operand_id input_3_4
    /\ Clone n [other_5_6] = Ok n'
    /\ Node_shape (base n') 0 = {| element_type := S32; dimensions := [5%Z] |}
    /\ Node_hash (base n') = Node_hash (base n).
Proof.
  pose (n := AMax_of input_3_4 [1%Z] false
               {| element_type := F32; dimensions := [3%Z] |}).
  pose (n' := AMax_of other_5_6 [1%Z] false
                {| element_type := S32; dimensions := [5%Z] |}).
  assert (AMax_ctor input_3_4 [1%Z] false = Ok n) as Hn by reflexivity.
  assert (operand_id other_5_6 = operand_id input_3_4) as Hid by reflexivity.
  assert (Clone n [other_5_6] = Ok n') as Hn' by reflexivity.
  exists n, n'. split; [exact Hn|]. split; [exact Hid|]. split; [exact Hn'|].
  split; [reflexivity|].
  exact (proj2 (proj2 (Clone_same_identity input_3_4 [1%Z] false n n'
                         other_5_6 [] Hn Hid Hn'))).
Defined.

Lemma ToString_tells_parameters_on_3_4 :
  exists n1 n2, AMax_ctor input_3_4 [0; 1]%Z true = Ok n1
    /\ AMax_ctor other_5_6 (dimensions_ n1) (keepdim_ n1) = Ok n2
    /\ ToString n1 = ToString n2
    /\ dimensions_ n1 = dimensions_ n2 /\ keepdim_ n1 = keepdim_ n2.
Proof.
  pose (n1 := AMax_of input_3_4 [0; 1]%Z true
                {| element_type := F32; dimensions := [1; 1]%Z |}).
  pose (n2 := AMax_of other_5_6 [0; 1]%Z true
                {| element_type := S32; dimensions := [1; 1]%Z |}).
  assert (ToString n1 = ToString n2) as Hstring by reflexivity.
  exists n1, n2. split; [reflexivity|]. split; [reflexivity|].
  split; [exact Hstring|].
  exact (ToString_tells_parameters n1 n2 eq_refl Hstring).
Defined.

Lemma Clone_shape_from_operand_on_3_4 :
  exists n n', AMax_ctor input_3_4 [1%Z] false = Ok n
    /\ Clone n [other_5_6] = Ok n'
    /\ Node_shape (base n) 0 = {| element_type := F32; dimensions := [3%Z] |}
    /\ NodeOutputShape other_5_6 [1%Z] false = Ok (Node_shape (base n') 0)
    /\ Node_shape (base n') 0 = {| element_type := S32; dimensions := [5%Z] |}.
Proof.
  pose (n := AMax_of input_3_4 [1%Z] false
               {| element_type := F32; dimensions := [3%Z] |}).
  pose (n' := AMax_of other_5_6 [1%Z] false
                {| element_type := S32; dimensions := [5%Z] |}).
  assert (AMax_ctor input_3_4 [1%Z] false = Ok n) as Hn by reflexivity.
  assert (Clone n [other_5_6] = Ok n') as Hn' by reflexivity.
  exists n, n'. split; [exact Hn|]. split; [exact Hn'|].
  split; [reflexivity|]. split; [|reflexivity].
  exact (proj1 (Clone_shape_from_operand input_3_4 [1%Z] false n n'
                  other_5_6 [] Hn Hn')).
Defined.

End MoreExamples.
